(** * Narrative decomposition pipeline of [main.py]

    A shallow embedding of the data classes ([Entity], [EmotionType],
    [Scene]) and of the methods of [TextProcesor] ([segment_scenes],
    [extract_entities], [_get_entity_description], [detect_actions]),
    followed by the properties established about them.

    Python exceptions are modelled by an error monad, [try ... except] by a
    handler on it; the spaCy pipeline [self.nlp] is a field of the processor
    object and may raise. *)

From Stdlib Require Import String Ascii List Bool Arith ZArith Lia Floats.
Import ListNotations.
Open Scope string_scope.

Set Implicit Arguments.

(** ** Exceptions and the error monad *)

(** The exception classes the file declares or meets.  [ProviderError]
    stands for whatever the language models raise. *)
Inductive Exception : Type :=
| ProcessingError (msg : string)
| LayoutError (msg : string)
| ImageGenerationError (msg : string)
| StorageError (msg : string)
| ValueError (msg : string)
| TypeError (msg : string)
| AttributeError (msg : string)
| ProviderError (msg : string).

(** [str(e)] *)
Definition str_exn (e : Exception) : string :=
  match e with
  | ProcessingError m | LayoutError m | ImageGenerationError m
  | StorageError m | ValueError m | TypeError m | AttributeError m
  | ProviderError m => m
  end.

Inductive result (A : Type) : Type :=
| Return (a : A)
| Raise (e : Exception).
Arguments Return {A} a.
Arguments Raise {A} e.

Definition bind {A B} (c : result A) (k : A -> result B) : result B :=
  match c with
  | Return a => k a
  | Raise e => Raise e
  end.

(** [try: body  except Exception as e: handler e] *)
Definition try_except {A} (body : result A) (handler : Exception -> result A)
  : result A :=
  match body with
  | Return a => Return a
  | Raise e => handler e
  end.

Declare Scope py_scope.
Delimit Scope py_scope with py.
Notation "x <- c ;; k" := (bind c (fun x => k))
  (at level 61, c at next level, right associativity) : py_scope.
Open Scope py_scope.

Definition raises {A} (c : result A) : bool :=
  match c with Return _ => false | Raise _ => true end.

(** ** Python strings and containers *)

(** [c.lower()] and [c.upper()] on one character; characters outside the
    ASCII letters are left as they are. *)
Definition lower_ascii (c : ascii) : ascii :=
  let n := nat_of_ascii c in
  if ((65 <=? n) && (n <=? 90))%nat then ascii_of_nat (n + 32) else c.

Definition upper_ascii (c : ascii) : ascii :=
  let n := nat_of_ascii c in
  if ((97 <=? n) && (n <=? 122))%nat then ascii_of_nat (n - 32) else c.

Fixpoint lower (s : string) : string :=
  match s with
  | EmptyString => EmptyString
  | String c s' => String (lower_ascii c) (lower s')
  end.

Fixpoint upper (s : string) : string :=
  match s with
  | EmptyString => EmptyString
  | String c s' => String (upper_ascii c) (upper s')
  end.

(** [sub in s] on strings: substring containment. *)
Fixpoint contains (sub s : string) : bool :=
  String.prefix sub s ||
  match s with
  | EmptyString => false
  | String _ s' => contains sub s'
  end.

(** [x in l] for a list of strings. *)
Definition str_in (x : string) (l : list string) : bool :=
  existsb (String.eqb x) l.

(** [sep.join(l)] *)
Definition join (sep : string) (l : list string) : string :=
  String.concat sep l.

(** [l.append(x)] *)
Definition list_append {A} (l : list A) (x : A) : list A := (l ++ [x])%list.

(** Truth value of a list and of a string: non-empty. *)
Definition truthy {A} (l : list A) : bool :=
  match l with [] => false | _ :: _ => true end.

Definition truthy_str (s : string) : bool :=
  match s with EmptyString => false | String _ _ => true end.

(** Python values, for keyword arguments and for the mappings [to_dict]
    returns.  A [dict] keeps its insertion order. *)
#[warnings="-register-all"]
Inductive object : Type :=
| PyNone
| PyStr (s : string)
| PyInt (z : Z)
| PyFloat (f : float)
| PyList (l : list object)
| PyDict (d : list (string * object)).

Definition keys (d : list (string * object)) : list string := map fst d.

Fixpoint get (k : string) (d : list (string * object)) : option object :=
  match d with
  | [] => None
  | (k', v) :: d' => if String.eqb k k' then Some v else get k d'
  end.

(** ** EmotionType *)

Module EmotionType.

Inductive t : Type :=
| HAPPY | SAD | NEUTRAL | ANGRY | SURPRISE | FEAR | DISGUST | CONFUSED | OTHER.

(** [member.value] *)
Definition value (m : t) : string :=
  match m with
  | HAPPY => "happy"
  | SAD => "sad"
  | NEUTRAL => "neutral"
  | ANGRY => "angry"
  | SURPRISE => "surprise"
  | FEAR => "fear"
  | DISGUST => "disgust"
  | CONFUSED => "confused"
  | OTHER => "other"
  end.

(** The members in definition order. *)
Definition members : list t :=
  [HAPPY; SAD; NEUTRAL; ANGRY; SURPRISE; FEAR; DISGUST; CONFUSED; OTHER].

(** [cls(v)]: the member whose value is [v]; [ValueError] when there is
    none. *)
Definition call (v : string) : result t :=
  match find (fun m => String.eqb (value m) v) members with
  | Some m => Return m
  | None => Raise (ValueError ("'" ++ v ++ "' is not a valid EmotionType"))
  end.

(** [from_string]: [try: return cls(emotion.lower())
    except ValueError: return cls.OTHER] *)
Definition from_string (emotion : string) : result t :=
  try_except (call (lower emotion))
    (fun e => match e with
              | ValueError _ => Return OTHER
              | _ => Raise e
              end).

End EmotionType.

(** ** Entity *)

Module Entity.

(** The dataclass: fields in declaration order.  Python does not enforce
    the annotations, so a field holds an [object].  The last field is
    spelled [importanc] in the source. *)
Record t : Type := mk {
  name : object;
  type : object;
  attributes : object;
  position : object;
  importanc : object
}.

Definition fields : list string :=
  ["name"; "type"; "attributes"; "position"; "importanc"].

(** The [__init__] the dataclass decorator generates, called with keyword
    arguments only: a keyword that names no field is a [TypeError], so is a
    missing field without a default; [position] defaults to [None] and
    [importanc] to [1.0]. *)
Definition init (kwargs : list (string * object)) : result t :=
  match find (fun kv => negb (str_in (fst kv) fields)) kwargs with
  | Some (k, _) =>
      Raise (TypeError
               ("Entity.__init__() got an unexpected keyword argument '"
                  ++ k ++ "'"))
  | None =>
      match get "name" kwargs, get "type" kwargs, get "attributes" kwargs with
      | Some n, Some ty, Some a =>
          Return {| name := n;
                    type := ty;
                    attributes := a;
                    position := match get "position" kwargs with
                                | Some p => p
                                | None => PyNone
                                end;
                    importanc := match get "importanc" kwargs with
                                 | Some w => w
                                 | None => PyFloat 1.0
                                 end |}
      | _, _, _ =>
          Raise (TypeError
                   "Entity.__init__() missing required positional arguments")
      end
  end.

(** [to_dict]: [asdict(self)], one key per field, in field order. *)
Definition to_dict (self : t) : list (string * object) :=
  [("name", name self);
   ("type", type self);
   ("attributes", attributes self);
   ("position", position self);
   ("importanc", importanc self)].

End Entity.

(** ** Scene *)

Module Scene.

Record t : Type := mk {
  id : Z;
  text : string;
  entities : list Entity.t;
  mood : EmotionType.t;
  actions : list string;
  layout : object;
  image_path : object
}.

Definition to_dict (self : t) : list (string * object) :=
  [("id", PyInt (id self));
   ("text", PyStr (text self));
   ("entities", PyList (map (fun e => PyDict (Entity.to_dict e)) (entities self)));
   ("mood", PyStr (EmotionType.value (mood self)));
   ("actions", PyList (map PyStr (actions self)));
   ("layout", layout self);
   ("image_path", image_path self)].

End Scene.

(** ** What the spaCy pipeline returns *)

(** A token of a parsed document.  [i] is its index in the document and
    [head] the index of its syntactic head: two tokens of one document are
    equal exactly when their indices are. *)
Module Token.

Record t : Type := mk {
  i : nat;
  text : string;
  pos_ : string;
  dep_ : string;
  head : nat
}.

End Token.

(** A span of a document: a sentence of [doc.sents] or an entity of
    [doc.ents].  [root] is the index of the span's root token. *)
Module Span.

Record t : Type := mk {
  text : string;
  label_ : string;
  root : nat
}.

End Span.

Module Doc.

Record t : Type := mk {
  sents : list Span.t;
  ents : list Span.t;
  tokens : list Token.t
}.

End Doc.

(** ** TextProcesor *)

(** The processor object.  [nlp] is [self.nlp], the loaded spaCy pipeline.
    [classify_emotion] is the emotion classifier behind [self.tokenizer]
    and [self.emotion_model], with the interface named in the design
    (label and confidence). *)
Record TextProcesor : Type := {
  nlp : string -> result Doc.t;
  classify_emotion : string -> result (string * float)
}.

Definition markers : list string :=
  ["later"; "meanwhile"; "after"; "before"; "next"; "suddenly"].

(** [any(marker in sent.text.lower() for marker in [...])] *)
Definition has_marker (sent : Span.t) : bool :=
  existsb (fun marker => contains marker (lower (Span.text sent))) markers.

(** The [for sent in doc.sents] loop of [segment_scenes], on the pair
    of [scenes] and [current_scene]. *)
Fixpoint segment_loop (sents : list Span.t)
    (scenes current_scene : list string) : list string * list string :=
  match sents with
  | [] => (scenes, current_scene)
  | sent :: rest =>
      let current_scene := list_append current_scene (Span.text sent) in
      if has_marker sent
      then segment_loop rest (list_append scenes (join " " current_scene)) []
      else segment_loop rest scenes current_scene
  end.

Definition segment_scenes (self : TextProcesor) (text : string)
  : result (list string) :=
  try_except
    (doc <- nlp self text ;;
     let '(scenes, current_scene) := segment_loop (Doc.sents doc) [] [] in
     let scenes :=
       if truthy current_scene
       then list_append scenes (join " " current_scene)
       else scenes in
     Return (if truthy scenes then scenes else [text]))
    (fun e => Raise (ProcessingError "Failed to segment scenes")).

(** [_get_entity_description]: the texts of the tokens whose head is the
    entity's root and whose relation is [amod] or [advmod]. *)
Fixpoint description_loop (ent : Span.t) (tokens : list Token.t)
    (description_terms : list string) : list string :=
  match tokens with
  | [] => description_terms
  | token :: rest =>
      if Nat.eqb (Token.head token) (Span.root ent)
      then if str_in (Token.dep_ token) ["amod"; "advmod"]
           then description_loop ent rest
                  (list_append description_terms (Token.text token))
           else description_loop ent rest description_terms
      else description_loop ent rest description_terms
  end.

Definition _get_entity_description (ent : Span.t) (doc : Doc.t) : string :=
  let description_terms := description_loop ent (Doc.tokens doc) [] in
  if truthy description_terms then join " " description_terms else "".

(** The importance computed for an entity span. *)
Definition importance_of (ent : Span.t) : float :=
  let importance := 1.0%float in
  if str_in (Span.label_ ent) ["PERSON"; "ORG"]
  then (importance * 1.5)%float
  else importance.

(** The [attributes] dictionary built for an entity span. *)
Definition attributes_of (ent : Span.t) (doc : Doc.t) : list (string * object) :=
  [("description", PyStr (_get_entity_description ent doc));
   ("label", PyStr (Span.label_ ent))].

(** The [for ent in doc.ents] loop of [extract_entities]. *)
Fixpoint entities_loop (doc : Doc.t) (ents : list Span.t)
    (entities : list Entity.t) : result (list Entity.t) :=
  match ents with
  | [] => Return entities
  | ent :: rest =>
      let importance := importance_of ent in
      let attributes := attributes_of ent doc in
      e <- Entity.init [("name", PyStr (Span.text ent));
                        ("type", PyStr (Span.label_ ent));
                        ("attributes", PyDict attributes);
                        ("importance", PyFloat importance)] ;;
      entities_loop doc rest (list_append entities e)
  end.

Definition extract_entities (self : TextProcesor) (text : string)
  : result (list Entity.t) :=
  try_except
    (doc <- nlp self text ;;
     entities_loop doc (Doc.ents doc) [])
    (fun e => Raise (ProcessingError ("Entity extraction failed: " ++ str_exn e))).

(** [token.pos_ == "VERB" and token.dep_ in ["ROOT", "xcomp"]] *)
Definition is_action_verb (token : Token.t) : bool :=
  String.eqb (Token.pos_ token) "VERB"
  && str_in (Token.dep_ token) ["ROOT"; "xcomp"].

(** The message of the [AttributeError] that the lookup of
    [_extract_verb_phrase] on the object raises. *)
Definition missing_verb_phrase : string :=
  "'TextProcesor' object has no attribute '_extract_verb_phrase'".

(** [self._extract_verb_phrase(token)].  The class defines [__init__],
    [segment_scenes], [extract_entities], [_get_entity_description] and
    [detect_actions], and [__init__] sets [nlp], [tokenizer] and
    [emotion_model]: the object has no attribute [_extract_verb_phrase],
    so the attribute lookup raises [AttributeError] and nothing is
    called. *)
Definition _extract_verb_phrase (self : TextProcesor) (token : Token.t)
  : result string :=
  Raise (AttributeError missing_verb_phrase).

(** The [for token in doc] loop of [detect_actions]. *)
Fixpoint actions_loop (self : TextProcesor) (tokens : list Token.t)
    (actions : list string) : result (list string) :=
  match tokens with
  | [] => Return actions
  | token :: rest =>
      if is_action_verb token
      then verb_phrase <- _extract_verb_phrase self token ;;
           if truthy_str verb_phrase
           then actions_loop self rest (list_append actions verb_phrase)
           else actions_loop self rest actions
      else actions_loop self rest actions
  end.

Definition detect_actions (self : TextProcesor) (text : string)
  : result (list string) :=
  try_except
    (doc <- nlp self text ;;
     actions <- actions_loop self (Doc.tokens doc) [] ;;
     Return actions)
    (fun e => Raise (ProcessingError ("Action detection failed: " ++ str_exn e))).

(** ** The scene assembler *)

(** Modelled from the spec: [classify_mood] is not in the file.  The
    design (4.4) delegates to the provider's emotion classifier, takes its
    label, maps it through [EmotionType.from_string], and raises
    [ProcessingError] when the classifier fails. *)
Definition classify_mood (self : TextProcesor) (text : string)
  : result EmotionType.t :=
  try_except
    (r <- classify_emotion self text ;;
     EmotionType.from_string (fst r))
    (fun e => Raise (ProcessingError ("Mood classification failed: " ++ str_exn e))).

(** Modelled from the spec: the loop of [build_scenes] (4.5), which is not
    in the file.  For each scene text in order it runs the entity
    extractor, the action extractor and the mood classifier, gives the
    scene the next zero-based index as [id], and appends the record; a
    failing stage fails the whole call with its [ProcessingError]. *)
Fixpoint build_loop (self : TextProcesor) (scene_texts : list string)
    (index : Z) (scenes : list Scene.t) : result (list Scene.t) :=
  match scene_texts with
  | [] => Return scenes
  | scene_text :: rest =>
      entities <- extract_entities self scene_text ;;
      actions <- detect_actions self scene_text ;;
      mood <- classify_mood self scene_text ;;
      build_loop self rest (index + 1)
        (list_append scenes
           (Scene.mk index scene_text entities mood actions PyNone PyNone))
  end.

(** Modelled from the spec: [build_scenes] (4.5) runs the segmenter once
    on the full text and then the loop above. *)
Definition build_scenes (self : TextProcesor) (text : string)
  : result (list Scene.t) :=
  scene_texts <- segment_scenes self text ;;
  build_loop self scene_texts 0%Z [].

(** ** Comparing texts up to whitespace *)

Definition is_whitespace (c : ascii) : bool :=
  existsb (Ascii.eqb c) [" "; "009"; "010"; "011"; "012"; "013"]%char.

Fixpoint remove_whitespace (s : string) : string :=
  match s with
  | EmptyString => EmptyString
  | String c s' =>
      if is_whitespace c then remove_whitespace s'
      else String c (remove_whitespace s')
  end.

Definition same_modulo_whitespace (a b : string) : Prop :=
  remove_whitespace a = remove_whitespace b.

(** What the pipeline guarantees about [doc.sents]: spaCy's tokenisation
    keeps every character of the text, and the sentences partition the
    tokens, so the sentence texts, one after the other, are the text up to
    the whitespace between and around them. *)
Definition sentences_cover (text : string) (doc : Doc.t) : Prop :=
  same_modulo_whitespace (join "" (map Span.text (Doc.sents doc))) text.

Definition whitespace_only (s : string) : Prop := remove_whitespace s = "".

(** The scenes reproduce the text exactly but for separating whitespace:
    the text is the scenes in order, with nothing but whitespace before,
    between and after them. *)
Fixpoint reproduces (scenes : list string) (text : string) : Prop :=
  match scenes with
  | [] => whitespace_only text
  | scene :: rest =>
      exists gap tail,
        whitespace_only gap
        /\ text = gap ++ scene ++ tail
        /\ reproduces rest tail
  end.

(** ** Closed forms the loops are compared with *)

(** The message of the [TypeError] the constructor call of
    [extract_entities] meets. *)
Definition unexpected_importance : string :=
  "Entity.__init__() got an unexpected keyword argument 'importance'".

(** The texts of a list, one after the other, without their whitespace. *)
Fixpoint squeeze (l : list string) : string :=
  match l with
  | [] => ""
  | x :: xs => remove_whitespace x ++ squeeze xs
  end.

(** The value [segment_scenes] returns once the document is there. *)
Definition scenes_of (text : string) (doc : Doc.t) : list string :=
  let '(scenes, current_scene) := segment_loop (Doc.sents doc) [] [] in
  let scenes :=
    if truthy current_scene
    then list_append scenes (join " " current_scene)
    else scenes in
  if truthy scenes then scenes else [text].

(** The description the design words: the single-space join of the texts
    of the qualifying tokens, in token order. *)
Definition qualifies (ent : Span.t) (token : Token.t) : bool :=
  Nat.eqb (Token.head token) (Span.root ent)
  && str_in (Token.dep_ token) ["amod"; "advmod"].

Definition description_spec (ent : Span.t) (doc : Doc.t) : string :=
  join " " (map Token.text (filter (qualifies ent) (Doc.tokens doc))).

(** ** A concrete processor for the examples *)

Definition tok (i : nat) (text pos dep : string) (head : nat) : Token.t :=
  Token.mk i text pos dep head.

Definition sentence (text : string) (root : nat) : Span.t :=
  Span.mk text "" root.

Definition doc_rain : Doc.t :=
  Doc.mk [sentence "Suddenly it rained." 2]
         []
         [tok 0 "Suddenly" "ADV" "advmod" 2; tok 1 "it" "PRON" "nsubj" 2;
          tok 2 "rained" "VERB" "ROOT" 2; tok 3 "." "PUNCT" "punct" 2].

Definition doc_home : Doc.t :=
  Doc.mk [sentence "They ran home." 1]
         []
         [tok 0 "They" "PRON" "nsubj" 1; tok 1 "ran" "VERB" "ROOT" 1;
          tok 2 "home" "ADV" "advmod" 1; tok 3 "." "PUNCT" "punct" 1].

Definition doc_rain_home : Doc.t :=
  Doc.mk [sentence "Suddenly it rained." 2; sentence "They ran home." 5]
         []
         [tok 0 "Suddenly" "ADV" "advmod" 2; tok 1 "it" "PRON" "nsubj" 2;
          tok 2 "rained" "VERB" "ROOT" 2; tok 3 "." "PUNCT" "punct" 2;
          tok 4 "They" "PRON" "nsubj" 5; tok 5 "ran" "VERB" "ROOT" 5;
          tok 6 "home" "ADV" "advmod" 5; tok 7 "." "PUNCT" "punct" 5].

Definition doc_day : Doc.t :=
  Doc.mk [sentence "Good day." 1]
         []
         [tok 0 "Good" "ADJ" "amod" 1; tok 1 "day" "NOUN" "ROOT" 1;
          tok 2 "." "PUNCT" "punct" 1].

(** [Hello there. Good day. ] with a space after the last full stop; a
    sentence's text stops at its last token. *)
Definition doc_hello : Doc.t :=
  Doc.mk [sentence "Hello there." 0; sentence "Good day." 4]
         []
         [tok 0 "Hello" "INTJ" "ROOT" 0; tok 1 "there" "ADV" "advmod" 0;
          tok 2 "." "PUNCT" "punct" 0;
          tok 3 "Good" "ADJ" "amod" 4; tok 4 "day" "NOUN" "ROOT" 4;
          tok 5 "." "PUNCT" "punct" 4].

Definition doc_maria : Doc.t :=
  Doc.mk [sentence "Brave Maria walked into the garden." 2]
         [Span.mk "Maria" "PERSON" 1]
         [tok 0 "Brave" "ADJ" "amod" 1; tok 1 "Maria" "PROPN" "nsubj" 2;
          tok 2 "walked" "VERB" "ROOT" 2; tok 3 "into" "ADP" "prep" 2;
          tok 4 "the" "DET" "det" 5; tok 5 "garden" "NOUN" "pobj" 3;
          tok 6 "." "PUNCT" "punct" 2].

Definition doc_silence : Doc.t :=
  Doc.mk [sentence "Suddenly, silence." 2]
         []
         [tok 0 "Suddenly" "ADV" "advmod" 2; tok 1 "," "PUNCT" "punct" 2;
          tok 2 "silence" "NOUN" "ROOT" 2; tok 3 "." "PUNCT" "punct" 2].

Definition doc_silence_day : Doc.t :=
  Doc.mk [sentence "Suddenly, silence." 2; sentence "Good day." 5]
         []
         [tok 0 "Suddenly" "ADV" "advmod" 2; tok 1 "," "PUNCT" "punct" 2;
          tok 2 "silence" "NOUN" "ROOT" 2; tok 3 "." "PUNCT" "punct" 2;
          tok 4 "Good" "ADJ" "amod" 5; tok 5 "day" "NOUN" "ROOT" 5;
          tok 6 "." "PUNCT" "punct" 5].

Definition parses : list (string * Doc.t) :=
  [("Suddenly, silence. Good day.", doc_silence_day);
   ("Suddenly, silence.", doc_silence);
   ("Suddenly it rained. They ran home.", doc_rain_home);
   ("Suddenly it rained.", doc_rain);
   ("They ran home.", doc_home);
   ("Good day.", doc_day);
   ("Hello there. Good day. ", doc_hello);
   ("Brave Maria walked into the garden.", doc_maria)].

Fixpoint lookup_parse (text : string) (table : list (string * Doc.t))
  : result Doc.t :=
  match table with
  | [] => Raise (ProviderError "cannot analyse the text")
  | (t, doc) :: rest =>
      if String.eqb text t then Return doc else lookup_parse text rest
  end.

(** A processor whose pipeline knows the documents above and fails on
    any other text, and whose classifier answers [joy]. *)
Definition demo : TextProcesor :=
  {| nlp := fun text => lookup_parse text parses;
     classify_emotion := fun _ => Return ("joy", 0.75%float) |}.

Definition doc_paris : Doc.t :=
  Doc.mk [sentence "Maria visited Paris." 1]
         [Span.mk "Maria" "PERSON" 0; Span.mk "Paris" "GPE" 2]
         [tok 0 "Maria" "PROPN" "nsubj" 1; tok 1 "visited" "VERB" "ROOT" 1;
          tok 2 "Paris" "PROPN" "dobj" 1; tok 3 "." "PUNCT" "punct" 1].

(** The same pipeline with one more document. *)
Definition demo_paris : TextProcesor :=
  {| nlp := fun text =>
              lookup_parse text (("Maria visited Paris.", doc_paris) :: parses);
     classify_emotion := classify_emotion demo |}.

(** A processor whose pipeline returns [doc] for [text] and fails on any
    other text. *)
Definition reading (text : string) (doc : Doc.t) : TextProcesor :=
  {| nlp := fun t =>
              if String.eqb t text then Return doc
              else Raise (ProviderError "cannot analyse the text");
     classify_emotion := classify_emotion demo |}.

(** Two sentences on two lines, and the three ways a pipeline can attach
    the line break: to the first sentence, to the second, to neither. *)
Definition newline : string := String (ascii_of_nat 10) "".

Definition two_lines : string := "Hello there." ++ newline ++ "Good day.".

Definition tokens_two_lines : list Token.t :=
  [tok 0 "Hello" "INTJ" "ROOT" 0; tok 1 "there" "ADV" "advmod" 0;
   tok 2 "." "PUNCT" "punct" 0; tok 3 newline "SPACE" "dep" 2;
   tok 4 "Good" "ADJ" "amod" 5; tok 5 "day" "NOUN" "ROOT" 5;
   tok 6 "." "PUNCT" "punct" 5].

Definition doc_break_first : Doc.t :=
  Doc.mk [sentence ("Hello there." ++ newline) 0; sentence "Good day." 5]
         [] tokens_two_lines.

Definition doc_break_second : Doc.t :=
  Doc.mk [sentence "Hello there." 0; sentence (newline ++ "Good day.") 5]
         [] tokens_two_lines.

Definition doc_break_neither : Doc.t :=
  Doc.mk [sentence "Hello there." 0; sentence "Good day." 5]
         [] tokens_two_lines.

(** * Properties *)

(** ** The error monad *)

Lemma bind_Return_inv {A B} (c : result A) (k : A -> result B) (b : B) :
  bind c k = Return b -> exists a, c = Return a /\ k a = Return b.
Proof.
  destruct c as [a | e]; simpl; intro H.
  - exists a. split; [reflexivity | exact H].
  - discriminate H.
Qed.

(** ** Strings *)

Lemma lower_ascii_idempotent (c : ascii) :
  lower_ascii (lower_ascii c) = lower_ascii c.
Proof.
  destruct c as [[] [] [] [] [] [] [] []]; reflexivity.
Qed.

Lemma lower_upper_ascii (c : ascii) :
  lower_ascii (upper_ascii c) = lower_ascii c.
Proof.
  destruct c as [[] [] [] [] [] [] [] []]; reflexivity.
Qed.

Lemma lower_idempotent (s : string) : lower (lower s) = lower s.
Proof.
  induction s as [| c s IH]; simpl.
  - reflexivity.
  - now rewrite lower_ascii_idempotent, IH.
Qed.

Lemma lower_upper (s : string) : lower (upper s) = lower s.
Proof.
  induction s as [| c s IH]; simpl.
  - reflexivity.
  - now rewrite lower_upper_ascii, IH.
Qed.

(** ** EmotionType *)

Lemma members_complete (m : EmotionType.t) : In m EmotionType.members.
Proof.
  destruct m; simpl; tauto.
Qed.

(** The lookup by value either finds the member with that value or
    raises [ValueError], and nothing else. *)
Lemma call_cases (v : string) :
  (exists m, EmotionType.value m = v /\ EmotionType.call v = Return m)
  \/ ((forall m, EmotionType.value m <> v)
      /\ exists msg, EmotionType.call v = Raise (ValueError msg)).
Proof.
  unfold EmotionType.call.
  destruct (find (fun m => EmotionType.value m =? v) EmotionType.members)
    as [m |] eqn:Hfind.
  - left. exists m. split; [| reflexivity].
    apply find_some in Hfind. destruct Hfind as [_ Heq].
    now apply String.eqb_eq.
  - right. split.
    + intros m Hm.
      pose proof (find_none _ _ Hfind m (members_complete m)) as Hne.
      simpl in Hne. apply String.eqb_neq in Hne. contradiction.
    + eexists. reflexivity.
Qed.

Lemma from_string_cases (s : string) :
  (exists m, EmotionType.value m = lower s
             /\ EmotionType.from_string s = Return m)
  \/ ((forall m, EmotionType.value m <> lower s)
      /\ EmotionType.from_string s = Return EmotionType.OTHER).
Proof.
  unfold EmotionType.from_string.
  destruct (call_cases (lower s)) as [[m [Hv Hc]] | [Hnone [msg Hc]]].
  - left. exists m. rewrite Hc. split; [exact Hv | reflexivity].
  - right. rewrite Hc. split; [exact Hnone | reflexivity].
Qed.

Lemma from_string_value (m : EmotionType.t) :
  EmotionType.from_string (EmotionType.value m) = Return m.
Proof.
  destruct m; reflexivity.
Qed.

(** C3: [EmotionType.from_string] is total over strings (it always returns
    a member and never raises), it returns the member whose value is the
    lowercased string and [OTHER] when there is none, it does not depend
    on the case of its argument ([from_string "HAPPY"] is [HAPPY]), and
    it is idempotent: mapping the value of its result again gives the same
    result. *)
Theorem from_string_total_case_insensitive_idempotent :
  (forall s, exists m, EmotionType.from_string s = Return m)
  /\ (forall s,
         (exists m, EmotionType.value m = lower s
                    /\ EmotionType.from_string s = Return m)
         \/ ((forall m, EmotionType.value m <> lower s)
             /\ EmotionType.from_string s = Return EmotionType.OTHER))
  /\ (forall s, EmotionType.from_string (upper s) = EmotionType.from_string s
                /\ EmotionType.from_string (lower s) = EmotionType.from_string s)
  /\ EmotionType.from_string "HAPPY" = Return EmotionType.HAPPY
  /\ EmotionType.from_string "gibberish" = Return EmotionType.OTHER
  /\ (forall s,
         (m <- EmotionType.from_string s ;;
          EmotionType.from_string (EmotionType.value m))
         = EmotionType.from_string s).
Proof.
  repeat split.
  - intro s. destruct (from_string_cases s) as [[m [_ H]] | [_ H]];
      eexists; exact H.
  - exact from_string_cases.
  - unfold EmotionType.from_string. now rewrite lower_upper.
  - unfold EmotionType.from_string. now rewrite lower_idempotent.
  - intro s. destruct (from_string_cases s) as [[m [_ H]] | [_ H]];
      rewrite H; unfold bind; apply from_string_value.
Qed.

(** ** Texts up to whitespace *)

Lemma string_app_assoc (a b c : string) : (a ++ b) ++ c = a ++ (b ++ c).
Proof.
  induction a as [| x a IH]; simpl; [reflexivity | now rewrite IH].
Qed.

Lemma string_app_nil_r (a : string) : a ++ "" = a.
Proof.
  induction a as [| x a IH]; simpl; [reflexivity | now rewrite IH].
Qed.

Lemma remove_whitespace_app (a b : string) :
  remove_whitespace (a ++ b) = remove_whitespace a ++ remove_whitespace b.
Proof.
  induction a as [| x a IH]; simpl.
  - reflexivity.
  - destruct (is_whitespace x); simpl; now rewrite IH.
Qed.

Lemma squeeze_app (l1 l2 : list string) :
  squeeze (l1 ++ l2)%list = squeeze l1 ++ squeeze l2.
Proof.
  induction l1 as [| x l1 IH]; simpl.
  - reflexivity.
  - now rewrite IH, string_app_assoc.
Qed.

(** Joining with a separator made of whitespace adds nothing. *)
Lemma remove_whitespace_join (sep : string) (l : list string) :
  remove_whitespace sep = "" ->
  remove_whitespace (join sep l) = squeeze l.
Proof.
  intro Hsep. unfold join.
  induction l as [| x [| y l] IH].
  - reflexivity.
  - simpl. now rewrite string_app_nil_r.
  - change (String.concat sep (x :: y :: l))
      with (x ++ sep ++ String.concat sep (y :: l)).
    rewrite !remove_whitespace_app, Hsep, IH. reflexivity.
Qed.

Lemma squeeze_list_append_join (scenes current : list string) :
  squeeze (list_append scenes (join " " current)) = squeeze scenes ++ squeeze current.
Proof.
  unfold list_append. rewrite squeeze_app. simpl.
  rewrite (@remove_whitespace_join " " current eq_refl).
  now rewrite string_app_nil_r.
Qed.

(** ** segment_scenes *)

(** The loop loses no sentence: what it has closed and what it still
    buffers are, up to whitespace, what it started with and the sentences
    it has read. *)
Lemma segment_loop_squeeze (sents : list Span.t) :
  forall scenes current scenes' current',
    segment_loop sents scenes current = (scenes', current') ->
    squeeze scenes' ++ squeeze current'
    = squeeze scenes ++ squeeze current ++ squeeze (map Span.text sents).
Proof.
  induction sents as [| sent rest IH]; intros scenes current scenes' current' H;
    simpl in H.
  - injection H as <- <-. simpl. now rewrite string_app_nil_r.
  - destruct (has_marker sent).
    + apply IH in H. rewrite H. simpl.
      rewrite squeeze_list_append_join. unfold list_append.
      rewrite squeeze_app. simpl.
      rewrite !string_app_assoc. reflexivity.
    + apply IH in H. rewrite H. unfold list_append.
      rewrite squeeze_app. simpl.
      rewrite !string_app_assoc. reflexivity.
Qed.

(** Without a marker the loop closes nothing and buffers every sentence. *)
Lemma segment_loop_unmarked (sents : list Span.t) :
  forall scenes current,
    Forall (fun sent => has_marker sent = false) sents ->
    segment_loop sents scenes current
    = (scenes, (current ++ map Span.text sents)%list).
Proof.
  induction sents as [| sent rest IH]; intros scenes current Hall; simpl.
  - now rewrite app_nil_r.
  - inversion Hall as [| ? ? Hsent Hrest]; subst.
    rewrite Hsent, (IH _ _ Hrest). unfold list_append.
    now rewrite <- app_assoc.
Qed.

Lemma segment_scenes_ok (self : TextProcesor) (text : string) (doc : Doc.t) :
  nlp self text = Return doc ->
  segment_scenes self text = Return (scenes_of text doc).
Proof.
  intro Hdoc. unfold segment_scenes, scenes_of. rewrite Hdoc. simpl.
  destruct (segment_loop (Doc.sents doc) [] []) as [scenes current].
  reflexivity.
Qed.

Lemma scenes_of_nonempty (text : string) (doc : Doc.t) :
  scenes_of text doc <> [].
Proof.
  unfold scenes_of.
  destruct (segment_loop (Doc.sents doc) [] []) as [scenes current].
  destruct current as [| c current]; simpl.
  - destruct scenes; simpl; discriminate.
  - unfold list_append. destruct scenes; simpl; discriminate.
Qed.

Lemma scenes_of_squeeze (text : string) (doc : Doc.t) :
  sentences_cover text doc ->
  squeeze (scenes_of text doc) = remove_whitespace text.
Proof.
  unfold sentences_cover, same_modulo_whitespace. intro Hcover.
  rewrite (@remove_whitespace_join "" _ eq_refl) in Hcover.
  unfold scenes_of.
  destruct (segment_loop (Doc.sents doc) [] []) as [scenes current] eqn:Hloop.
  apply segment_loop_squeeze in Hloop. simpl in Hloop.
  assert (Hfinal :
            squeeze (if truthy current
                     then list_append scenes (join " " current)
                     else scenes)
            = remove_whitespace text).
  { destruct current as [| c current].
    - simpl. simpl in Hloop. rewrite string_app_nil_r in Hloop. congruence.
    - cbn [truthy]. rewrite squeeze_list_append_join. congruence. }
  destruct (if truthy current
            then list_append scenes (join " " current)
            else scenes) as [| s final].
  - simpl. now rewrite string_app_nil_r.
  - exact Hfinal.
Qed.

(** ** Substrings *)

Lemma prefix_iff (a : string) :
  forall s, String.prefix a s = true <-> exists post, s = a ++ post.
Proof.
  induction a as [| c a IH]; intro s.
  - split.
    + intros _. exists s. reflexivity.
    + intros _. destruct s; reflexivity.
  - destruct s as [| c' s].
    + simpl. split; [discriminate | intros [post H]; discriminate H].
    + simpl. destruct (ascii_dec c c') as [<- | Hne].
      * rewrite IH. split; intros [post H]; exists post.
        -- now rewrite H.
        -- now injection H.
      * split; [discriminate |].
        intros [post H]. injection H as H _. congruence.
Qed.

Lemma contains_unfold (sub s : string) :
  contains sub s
  = String.prefix sub s
    || match s with
       | EmptyString => false
       | String _ s' => contains sub s'
       end.
Proof.
  destruct s; reflexivity.
Qed.

(** [contains] is substring containment. *)
Lemma contains_iff (sub : string) :
  forall s, contains sub s = true <-> exists pre post, s = pre ++ sub ++ post.
Proof.
  induction s as [| c s IH]; rewrite contains_unfold, orb_true_iff.
  - split.
    + intros [H | H]; [| discriminate H].
      apply prefix_iff in H. destruct H as [post H].
      exists "", post. exact H.
    + intros [pre [post H]]. left. apply prefix_iff.
      destruct pre; [| discriminate H]. exists post. exact H.
  - split.
    + intros [H | H].
      * apply prefix_iff in H. destruct H as [post H].
        exists "", post. exact H.
      * apply IH in H. destruct H as [pre [post H]].
        exists (String c pre), post. simpl. now rewrite H.
    + intros [pre [post H]]. destruct pre as [| c' pre].
      * left. apply prefix_iff. exists post. exact H.
      * right. apply IH. injection H as _ H. exists pre, post. exact H.
Qed.

(** ** Joining *)

Lemma join_cons2 (sep x y : string) (l : list string) :
  join sep (x :: y :: l) = x ++ sep ++ join sep (y :: l).
Proof.
  reflexivity.
Qed.

(** Joining two lists, the second one not empty. *)
Lemma join_app (sep : string) (a b : list string) :
  truthy b = true ->
  join sep (a ++ b)%list
  = if truthy a then join sep a ++ sep ++ join sep b else join sep b.
Proof.
  intro Hb. induction a as [| x [| y a] IH].
  - reflexivity.
  - destruct b as [| z b]; [discriminate Hb |].
    cbn [app truthy]. rewrite join_cons2. reflexivity.
  - change ((x :: y :: a) ++ b)%list with (x :: y :: (a ++ b))%list.
    rewrite !join_cons2.
    change (y :: (a ++ b))%list with ((y :: a) ++ b)%list.
    rewrite IH. cbn [truthy].
    rewrite !string_app_assoc. reflexivity.
Qed.

Lemma truthy_app_r {A} (a b : list A) :
  truthy b = true -> truthy (a ++ b)%list = true.
Proof.
  intro Hb. destruct a; [exact Hb | reflexivity].
Qed.

Lemma truthy_str_app_l (a b : string) :
  truthy_str a = true -> truthy_str (a ++ b) = true.
Proof.
  destruct a; [discriminate | reflexivity].
Qed.

Lemma truthy_str_join (l : list string) :
  truthy l = true ->
  Forall (fun s => truthy_str s = true) l ->
  truthy_str (join " " l) = true.
Proof.
  intros Hl Hall. destruct l as [| x [| y l]]; [discriminate Hl | |].
  - now inversion Hall.
  - rewrite join_cons2. apply truthy_str_app_l. now inversion Hall.
Qed.

(** The closed scenes stand for the sentences [flat] they were made of:
    same single-space join, and empty together. *)
Lemma segment_loop_join (sents : list Span.t) :
  forall scenes current flat scenes' current',
    join " " scenes = join " " flat ->
    truthy scenes = truthy flat ->
    segment_loop sents scenes current = (scenes', current') ->
    exists flat',
      join " " scenes' = join " " flat'
      /\ truthy scenes' = truthy flat'
      /\ (flat' ++ current' = flat ++ current ++ map Span.text sents)%list.
Proof.
  induction sents as [| sent rest IH];
    intros scenes current flat scenes' current' Hjoin Htruthy H; simpl in H.
  - injection H as <- <-. exists flat. simpl. rewrite app_nil_r. auto.
  - unfold list_append in H.
    assert (Hcur : truthy (current ++ [Span.text sent])%list = true)
      by now apply truthy_app_r.
    destruct (has_marker sent).
    + apply (IH _ _ (flat ++ (current ++ [Span.text sent]))%list) in H.
      * destruct H as [flat' [H1 [H2 H3]]]. exists flat'.
        split; [exact H1 |]. split; [exact H2 |].
        rewrite H3. simpl. rewrite <- !app_assoc. reflexivity.
      * rewrite (@join_app " " scenes [_] eq_refl).
        rewrite (join_app " " flat _ Hcur).
        rewrite Htruthy, Hjoin. reflexivity.
      * rewrite (@truthy_app_r _ scenes [_] eq_refl).
        now rewrite (truthy_app_r flat _ Hcur).
    + apply (IH _ _ flat) in H; [| exact Hjoin | exact Htruthy].
      destruct H as [flat' [H1 [H2 H3]]]. exists flat'.
      split; [exact H1 |]. split; [exact H2 |].
      rewrite H3. rewrite <- !app_assoc. reflexivity.
Qed.

(** With a sentence in the document, the scenes joined by single spaces
    are the sentence texts joined by single spaces. *)
Lemma scenes_of_join (text : string) (doc : Doc.t) :
  truthy (Doc.sents doc) = true ->
  join " " (scenes_of text doc) = join " " (map Span.text (Doc.sents doc)).
Proof.
  intro Hsents. unfold scenes_of.
  destruct (segment_loop (Doc.sents doc) [] []) as [scenes current] eqn:Hloop.
  apply (@segment_loop_join _ _ _ [] _ _ eq_refl eq_refl) in Hloop.
  destruct Hloop as [flat [Hjoin [Htruthy Hflat]]]. simpl in Hflat.
  assert (Htexts : truthy (map Span.text (Doc.sents doc)) = true)
    by (destruct (Doc.sents doc); [discriminate Hsents | reflexivity]).
  rewrite <- Hflat in *.
  destruct current as [| c current].
  - rewrite app_nil_r in *. cbn [truthy]. rewrite Htruthy, Htexts. exact Hjoin.
  - cbn [truthy]. unfold list_append.
    rewrite (@truthy_app_r _ scenes [_] eq_refl).
    rewrite (@join_app " " scenes [_] eq_refl).
    rewrite (@join_app " " flat (c :: current) eq_refl).
    rewrite Htruthy, Hjoin. reflexivity.
Qed.

(** Scenes that reproduce a text are substrings of it. *)
Lemma reproduces_contains (scenes : list string) :
  forall text,
    reproduces scenes text ->
    Forall (fun scene => contains scene text = true) scenes.
Proof.
  induction scenes as [| scene rest IH]; intros text H; simpl in H.
  - constructor.
  - destruct H as [gap [tail [_ [Htext Hrest]]]]. constructor.
    + apply contains_iff. exists gap, tail. exact Htext.
    + apply IH in Hrest. apply Forall_forall. intros s Hs.
      apply (proj1 (Forall_forall _ _) Hrest) in Hs.
      apply contains_iff in Hs. destruct Hs as [pre [post Hs]].
      apply contains_iff. exists (gap ++ scene ++ pre), post.
      rewrite Htext, Hs. rewrite !string_app_assoc. reflexivity.
Qed.

(** C1, as the code has it: whenever the pipeline analyses the text,
    [segment_scenes] returns scene strings in order that hold every
    sentence once: joined by single spaces they are exactly the sentence
    texts joined by single spaces, and the result is the text itself,
    alone, when the document has no sentence.  The input is reproduced up
    to whitespace only, and as far as the sentences cover it. *)
Theorem segment_scenes_partition (self : TextProcesor) (text : string)
    (doc : Doc.t) :
  nlp self text = Return doc ->
  exists scenes,
    segment_scenes self text = Return scenes
    /\ (if truthy (Doc.sents doc)
        then join " " scenes = join " " (map Span.text (Doc.sents doc))
        else scenes = [text])
    /\ (sentences_cover text doc ->
        same_modulo_whitespace (join " " scenes) text
        /\ same_modulo_whitespace (join "" scenes) text).
Proof.
  intro Hdoc. exists (scenes_of text doc).
  split; [now apply segment_scenes_ok |]. split.
  - destruct (truthy (Doc.sents doc)) eqn:Hsents.
    + now apply scenes_of_join.
    + unfold scenes_of. destruct (Doc.sents doc); [reflexivity | discriminate].
  - intro Hcover. unfold same_modulo_whitespace.
    rewrite (@remove_whitespace_join " " _ eq_refl).
    rewrite (@remove_whitespace_join "" _ eq_refl).
    split; now apply scenes_of_squeeze.
Qed.

Lemma segment_scenes_partition_witness :
  exists scenes,
    segment_scenes demo "Suddenly it rained. They ran home." = Return scenes
    /\ (if truthy (Doc.sents doc_rain_home)
        then join " " scenes = join " " (map Span.text (Doc.sents doc_rain_home))
        else scenes = ["Suddenly it rained. They ran home."])
    /\ (sentences_cover "Suddenly it rained. They ran home." doc_rain_home ->
        same_modulo_whitespace (join " " scenes)
          "Suddenly it rained. They ran home."
        /\ same_modulo_whitespace (join "" scenes)
             "Suddenly it rained. They ran home.").
Proof.
  apply (@segment_scenes_partition demo "Suddenly it rained. They ran home."
           doc_rain_home).
  vm_compute. reflexivity.
Defined.

(** C1 as stated fails: for two sentences on two lines and no marker, the
    one scene returned has a space that the text has not, so it is no
    part of the text and does not reproduce it, whichever sentence the
    pipeline attaches the line break to. *)
Lemma segment_scenes_not_exact :
  (sentences_cover two_lines doc_break_first
   /\ segment_scenes (reading two_lines doc_break_first) two_lines
      = Return ["Hello there." ++ newline ++ " Good day."]
   /\ ~ reproduces ["Hello there." ++ newline ++ " Good day."] two_lines)
  /\ (sentences_cover two_lines doc_break_second
      /\ segment_scenes (reading two_lines doc_break_second) two_lines
         = Return ["Hello there. " ++ newline ++ "Good day."]
      /\ ~ reproduces ["Hello there. " ++ newline ++ "Good day."] two_lines)
  /\ (sentences_cover two_lines doc_break_neither
      /\ segment_scenes (reading two_lines doc_break_neither) two_lines
         = Return ["Hello there. Good day."]
      /\ ~ reproduces ["Hello there. Good day."] two_lines).
Proof.
  repeat split; try (vm_compute; reflexivity);
    intro H; apply reproduces_contains in H;
    inversion H as [| scene rest Hscene _]; subst;
    vm_compute in Hscene; discriminate Hscene.
Qed.

(** C4, as the code has it: whenever the pipeline analyses the text,
    [segment_scenes] returns a non-empty sequence; and when no sentence
    contains a marker the result is exactly one scene, which is the
    sentence texts joined by single spaces when the document has a
    sentence, and the input text itself when it has none. *)
Theorem segment_scenes_nonempty_unmarked (self : TextProcesor)
    (text : string) (doc : Doc.t) :
  nlp self text = Return doc ->
  exists scenes,
    segment_scenes self text = Return scenes
    /\ scenes <> []
    /\ (Forall (fun sent => has_marker sent = false) (Doc.sents doc) ->
        scenes = [if truthy (Doc.sents doc)
                  then join " " (map Span.text (Doc.sents doc))
                  else text]).
Proof.
  intro Hdoc. exists (scenes_of text doc).
  split; [now apply segment_scenes_ok |].
  split; [apply scenes_of_nonempty |].
  intro Hall. unfold scenes_of.
  rewrite (segment_loop_unmarked [] [] Hall). simpl.
  destruct (Doc.sents doc) as [| sent sents]; reflexivity.
Qed.

Lemma segment_scenes_nonempty_unmarked_witness :
  exists scenes,
    segment_scenes demo "Hello there. Good day. " = Return scenes
    /\ scenes <> []
    /\ (Forall (fun sent => has_marker sent = false) (Doc.sents doc_hello) ->
        scenes = [if truthy (Doc.sents doc_hello)
                  then join " " (map Span.text (Doc.sents doc_hello))
                  else "Hello there. Good day. "]).
Proof.
  apply (@segment_scenes_nonempty_unmarked demo "Hello there. Good day. "
           doc_hello).
  vm_compute. reflexivity.
Defined.

(** C4 as stated fails: on a non-empty text that ends in a space and has
    no marker, the single scene returned is the sentences joined by one
    space, not the input text. *)
Lemma segment_scenes_unmarked_not_input :
  "Hello there. Good day. " <> ""
  /\ nlp demo "Hello there. Good day. " = Return doc_hello
  /\ sentences_cover "Hello there. Good day. " doc_hello
  /\ Forall (fun sent => has_marker sent = false) (Doc.sents doc_hello)
  /\ segment_scenes demo "Hello there. Good day. "
     = Return ["Hello there. Good day."]
  /\ segment_scenes demo "Hello there. Good day. "
     <> Return ["Hello there. Good day. "].
Proof.
  split; [discriminate |].
  split; [vm_compute; reflexivity |].
  split; [vm_compute; reflexivity |].
  split.
  { repeat (apply Forall_cons; [vm_compute; reflexivity |]). apply Forall_nil. }
  split; [vm_compute; reflexivity |].
  vm_compute. discriminate.
Qed.

(** ** Entity and Scene records *)

(** The constructor call of [extract_entities] passes the keyword
    [importance], which names no field of the dataclass. *)
Lemma init_rejects_importance (n ty a w : object) :
  Entity.init [("name", n); ("type", ty); ("attributes", a); ("importance", w)]
  = Raise (TypeError
             "Entity.__init__() got an unexpected keyword argument 'importance'").
Proof.
  reflexivity.
Qed.

(** With the field's own spelling the same call builds the record. *)
Lemma init_accepts_importanc (n ty a w : object) :
  Entity.init [("name", n); ("type", ty); ("attributes", a); ("importanc", w)]
  = Return (Entity.mk n ty a PyNone w).
Proof.
  reflexivity.
Qed.

(** C5: [Entity.to_dict] has one key per field, and the last field is
    spelled [importanc]: the mapping has no key [importance], also for an
    entity built with the default weight.  [Scene.to_dict] has exactly the
    keys [id], [text], [entities], [mood], [actions], [layout] and
    [image_path], with the entities as their dictionaries and the mood as
    the value of its member. *)
Theorem to_dict_keys :
  (forall e, keys (Entity.to_dict e)
             = ["name"; "type"; "attributes"; "position"; "importanc"])
  /\ (forall e, get "importance" (Entity.to_dict e) = None)
  /\ (exists e,
         Entity.init [("name", PyStr "Maria"); ("type", PyStr "PERSON");
                      ("attributes", PyDict [])] = Return e
         /\ Entity.to_dict e
            = [("name", PyStr "Maria"); ("type", PyStr "PERSON");
               ("attributes", PyDict []); ("position", PyNone);
               ("importanc", PyFloat 1.0)])
  /\ (forall s, keys (Scene.to_dict s)
                = ["id"; "text"; "entities"; "mood"; "actions"; "layout";
                   "image_path"])
  /\ (forall s, get "entities" (Scene.to_dict s)
                = Some (PyList (map (fun e => PyDict (Entity.to_dict e))
                                  (Scene.entities s))))
  /\ (forall s, get "mood" (Scene.to_dict s)
                = Some (PyStr (EmotionType.value (Scene.mood s)))).
Proof.
  split; [reflexivity |].
  split; [reflexivity |].
  split; [eexists; split; reflexivity |].
  split; [reflexivity |].
  split; reflexivity.
Qed.

(** ** extract_entities *)

(** The loop fails at the first entity span, whatever the span is. *)
Lemma entities_loop_raises (doc : Doc.t) (ent : Span.t) (rest : list Span.t)
    (entities : list Entity.t) :
  entities_loop doc (ent :: rest) entities
  = Raise (TypeError unexpected_importance).
Proof.
  cbn [entities_loop]. rewrite init_rejects_importance. reflexivity.
Qed.

(** What [extract_entities] does when the pipeline succeeds: the empty
    list for a document without entity spans, [ProcessingError]
    otherwise. *)
Lemma extract_entities_ok (self : TextProcesor) (text : string) (doc : Doc.t) :
  nlp self text = Return doc ->
  extract_entities self text
  = match Doc.ents doc with
    | [] => Return []
    | _ :: _ =>
        Raise (ProcessingError
                 ("Entity extraction failed: " ++ unexpected_importance))
    end.
Proof.
  intro Hdoc. unfold extract_entities. rewrite Hdoc.
  destruct (Doc.ents doc) as [| ent rest] eqn:Hents.
  - simpl. rewrite Hents. reflexivity.
  - cbn [bind]. rewrite Hents, entities_loop_raises. reflexivity.
Qed.

(** A failure of the pipeline becomes a [ProcessingError]. *)
Lemma extract_entities_provider_failure (self : TextProcesor) (text : string)
    (e : Exception) :
  nlp self text = Raise e ->
  extract_entities self text
  = Raise (ProcessingError ("Entity extraction failed: " ++ str_exn e)).
Proof.
  intro Hdoc. unfold extract_entities. rewrite Hdoc. reflexivity.
Qed.

(** No call returns an entity record. *)
Lemma extract_entities_returns_nil (self : TextProcesor) (text : string)
    (entities : list Entity.t) :
  extract_entities self text = Return entities -> entities = [].
Proof.
  intro H. destruct (nlp self text) as [doc | e] eqn:Hdoc.
  - rewrite (extract_entities_ok _ _ Hdoc) in H.
    destruct (Doc.ents doc); [now injection H | discriminate H].
  - rewrite (extract_entities_provider_failure _ _ Hdoc) in H. discriminate H.
Qed.

(** The weight the loop computes is the one of the design. *)
Lemma importance_of_cases (ent : Span.t) :
  importance_of ent
  = if str_in (Span.label_ ent) ["PERSON"; "ORG"] then 1.5%float else 1.0%float.
Proof.
  unfold importance_of. destruct (str_in _ _); reflexivity.
Qed.

Lemma description_loop_filter (ent : Span.t) (tokens : list Token.t) :
  forall terms,
    description_loop ent tokens terms
    = (terms ++ map Token.text (filter (qualifies ent) tokens))%list.
Proof.
  induction tokens as [| token rest IH]; intro terms.
  - simpl. now rewrite app_nil_r.
  - cbn [description_loop filter]. unfold qualifies at 1.
    destruct (Nat.eqb (Token.head token) (Span.root ent)); cbn [andb].
    + destruct (str_in (Token.dep_ token) ["amod"; "advmod"]); cbn [map].
      * rewrite IH. unfold list_append. now rewrite <- app_assoc.
      * apply IH.
    + apply IH.
Qed.

(** [_get_entity_description] is the single-space join of the texts of
    the qualifying tokens in token order, the empty string when there is
    none. *)
Lemma _get_entity_description_spec (ent : Span.t) (doc : Doc.t) :
  _get_entity_description ent doc = description_spec ent doc.
Proof.
  unfold _get_entity_description, description_spec.
  rewrite description_loop_filter. simpl.
  destruct (map Token.text (filter (qualifies ent) (Doc.tokens doc)));
    reflexivity.
Qed.

(** The dictionary passed as [attributes] has exactly the keys
    [description] and [label]. *)
Lemma attributes_of_spec (ent : Span.t) (doc : Doc.t) :
  attributes_of ent doc
  = [("description", PyStr (description_spec ent doc));
     ("label", PyStr (Span.label_ ent))].
Proof.
  unfold attributes_of. now rewrite _get_entity_description_spec.
Qed.

(** C2: on a text with a person and a place the loop computes the weights
    1.5 and 1.0, yet [extract_entities] returns no entity record: the
    constructor call fails and the call raises [ProcessingError]. *)
Theorem extract_entities_importance_lost :
  nlp demo_paris "Maria visited Paris." = Return doc_paris
  /\ map importance_of (Doc.ents doc_paris) = [1.5%float; 1.0%float]
  /\ extract_entities demo_paris "Maria visited Paris."
     = Raise (ProcessingError
                ("Entity extraction failed: " ++ unexpected_importance)).
Proof.
  split; [vm_compute; reflexivity |].
  split; vm_compute; reflexivity.
Qed.

(** C6: the pipeline analyses the text without failing, and
    [extract_entities] raises [ProcessingError] all the same, because the
    document has an entity span. *)
Theorem extract_entities_raises_without_provider_failure :
  nlp demo "Brave Maria walked into the garden." = Return doc_maria
  /\ raises (nlp demo "Brave Maria walked into the garden.") = false
  /\ extract_entities demo "Brave Maria walked into the garden."
     = Raise (ProcessingError
                ("Entity extraction failed: " ++ unexpected_importance)).
Proof.
  split; [vm_compute; reflexivity |].
  split; vm_compute; reflexivity.
Qed.

(** C7: for the span [Maria], modified by [Brave], the loop builds the
    attributes [description: Brave] and [label: PERSON], yet no entity
    carrying them is produced: [extract_entities] raises. *)
Theorem extract_entities_attributes_lost :
  Doc.ents doc_maria = [Span.mk "Maria" "PERSON" 1]
  /\ attributes_of (Span.mk "Maria" "PERSON" 1) doc_maria
     = [("description", PyStr "Brave"); ("label", PyStr "PERSON")]
  /\ (forall entities,
         extract_entities demo "Brave Maria walked into the garden."
         <> Return entities).
Proof.
  split; [reflexivity |].
  split; [vm_compute; reflexivity |].
  intros entities H. vm_compute in H. discriminate H.
Qed.

(** ** detect_actions *)

(** The loop returns what it was given when no token is a verb with
    relation [ROOT] or [xcomp], and fails at the first such token. *)
Lemma actions_loop_cases (self : TextProcesor) (tokens : list Token.t) :
  forall actions,
    actions_loop self tokens actions
    = if existsb is_action_verb tokens
      then Raise (AttributeError missing_verb_phrase)
      else Return actions.
Proof.
  induction tokens as [| token rest IH]; intro actions.
  - reflexivity.
  - cbn [actions_loop existsb].
    destruct (is_action_verb token); [reflexivity | apply IH].
Qed.

(** What [detect_actions] does when the pipeline succeeds. *)
Lemma detect_actions_ok (self : TextProcesor) (text : string) (doc : Doc.t) :
  nlp self text = Return doc ->
  detect_actions self text
  = if existsb is_action_verb (Doc.tokens doc)
    then Raise (ProcessingError
                  ("Action detection failed: " ++ missing_verb_phrase))
    else Return [].
Proof.
  intro Hdoc. unfold detect_actions. rewrite Hdoc. cbn [bind].
  rewrite actions_loop_cases.
  destruct (existsb is_action_verb (Doc.tokens doc)); reflexivity.
Qed.

(** C8: the pipeline analyses the text and reports one verb with relation
    [ROOT], yet [detect_actions] returns no phrase for it: the method
    [_extract_verb_phrase] it calls is not defined, and the call ends in
    [ProcessingError]. *)
Theorem detect_actions_verb_raises :
  nlp demo "They ran home." = Return doc_home
  /\ filter is_action_verb (Doc.tokens doc_home) = [tok 1 "ran" "VERB" "ROOT" 1]
  /\ detect_actions demo "They ran home."
     = Raise (ProcessingError
                ("Action detection failed: " ++ missing_verb_phrase)).
Proof.
  split; [vm_compute; reflexivity |].
  split; vm_compute; reflexivity.
Qed.

(** C10: when the pipeline analyses the text and no token is a verb with
    relation [ROOT] or [xcomp], [detect_actions] returns the empty list and
    raises nothing. *)
Theorem detect_actions_no_verb (self : TextProcesor) (text : string)
    (doc : Doc.t) :
  nlp self text = Return doc ->
  Forall (fun token => is_action_verb token = false) (Doc.tokens doc) ->
  detect_actions self text = Return [].
Proof.
  intros Hdoc Hnone. rewrite (detect_actions_ok _ _ Hdoc).
  assert (Hex : existsb is_action_verb (Doc.tokens doc) = false).
  { induction Hnone as [| token rest Htoken _ IH]; [reflexivity |].
    cbn [existsb]. now rewrite Htoken, IH. }
  rewrite Hex. reflexivity.
Qed.

Lemma detect_actions_no_verb_witness :
  detect_actions demo "Good day." = Return [].
Proof.
  apply (@detect_actions_no_verb demo "Good day." doc_day).
  - vm_compute. reflexivity.
  - repeat (apply Forall_cons; [vm_compute; reflexivity |]). apply Forall_nil.
Defined.

(** ** build_scenes *)

Lemma build_loop_ids (self : TextProcesor) (scene_texts : list string) :
  forall index scenes result,
    build_loop self scene_texts index scenes = Return result ->
    map Scene.id result
    = (map Scene.id scenes
       ++ map (fun k => (index + Z.of_nat k)%Z) (seq 0 (length scene_texts)))%list
    /\ length result = length scenes + length scene_texts.
Proof.
  induction scene_texts as [| scene_text rest IH]; intros index scenes result H;
    simpl in H.
  - injection H as <-. simpl. rewrite app_nil_r. split; [reflexivity | lia].
  - apply bind_Return_inv in H. destruct H as [entities [_ H]].
    apply bind_Return_inv in H. destruct H as [actions [_ H]].
    apply bind_Return_inv in H. destruct H as [mood [_ H]].
    apply IH in H. destruct H as [Hids Hlen]. split.
    + rewrite Hids. unfold list_append. rewrite map_app. simpl.
      rewrite <- app_assoc. simpl. f_equal. f_equal.
      * f_equal. lia.
      * rewrite <- seq_shift, map_map. apply map_ext. intro k. lia.
    + rewrite Hlen. unfold list_append. rewrite length_app. simpl. lia.
Qed.

(** C9: when [build_scenes] returns N scenes, their ids are 0, 1, ...,
    N-1 in the order of the list. *)
Theorem build_scenes_ids (self : TextProcesor) (text : string)
    (scenes : list Scene.t) :
  build_scenes self text = Return scenes ->
  map Scene.id scenes = map Z.of_nat (seq 0 (length scenes)).
Proof.
  unfold build_scenes. intro H.
  apply bind_Return_inv in H. destruct H as [scene_texts [_ H]].
  apply build_loop_ids in H. destruct H as [Hids Hlen].
  simpl in Hids, Hlen. rewrite Hids, Hlen. reflexivity.
Qed.

Lemma build_scenes_ids_witness :
  exists scenes,
    build_scenes demo "Suddenly, silence. Good day." = Return scenes
    /\ length scenes = 2
    /\ map Scene.id scenes = [0%Z; 1%Z].
Proof.
  eexists. split; [vm_compute; reflexivity |].
  split; [reflexivity |].
  apply (@build_scenes_ids demo "Suddenly, silence. Good day.").
  vm_compute. reflexivity.
Defined.

(** * Further properties of the methods *)

(** ** Errors *)

(** X2: when the pipeline fails on the text, each of the three methods
    raises [ProcessingError]; [segment_scenes] with a fixed message that
    drops the cause, [extract_entities] and [detect_actions] with their
    prefix followed by the message of the cause. *)
Theorem provider_failure_is_wrapped (self : TextProcesor) (text : string)
    (e : Exception) :
  nlp self text = Raise e ->
  segment_scenes self text = Raise (ProcessingError "Failed to segment scenes")
  /\ extract_entities self text
     = Raise (ProcessingError ("Entity extraction failed: " ++ str_exn e))
  /\ detect_actions self text
     = Raise (ProcessingError ("Action detection failed: " ++ str_exn e)).
Proof.
  intro Hdoc.
  unfold segment_scenes, extract_entities, detect_actions.
  rewrite Hdoc. repeat split.
Qed.

Lemma provider_failure_is_wrapped_witness :
  segment_scenes demo "Once upon a time."
  = Raise (ProcessingError "Failed to segment scenes")
  /\ extract_entities demo "Once upon a time."
     = Raise (ProcessingError
                ("Entity extraction failed: "
                   ++ str_exn (ProviderError "cannot analyse the text")))
  /\ detect_actions demo "Once upon a time."
     = Raise (ProcessingError
                ("Action detection failed: "
                   ++ str_exn (ProviderError "cannot analyse the text"))).
Proof.
  apply (@provider_failure_is_wrapped demo "Once upon a time.").
  vm_compute. reflexivity.
Defined.

(** X3: [segment_scenes] raises exactly when the pipeline does: once the
    document is there it does not fail, whatever the sentences are.
    [detect_actions] raises when the pipeline does and also, the document
    being there, when one of its tokens is a verb with relation [ROOT] or
    [xcomp]. *)
Theorem segment_and_detect_failure_conditions (self : TextProcesor)
    (text : string) :
  raises (segment_scenes self text) = raises (nlp self text)
  /\ raises (detect_actions self text)
     = match nlp self text with
       | Raise _ => true
       | Return doc => existsb is_action_verb (Doc.tokens doc)
       end.
Proof.
  destruct (nlp self text) as [doc | e] eqn:Hdoc.
  - rewrite (segment_scenes_ok _ _ Hdoc), (detect_actions_ok _ _ Hdoc).
    split; [reflexivity |].
    destruct (existsb is_action_verb (Doc.tokens doc)); reflexivity.
  - unfold segment_scenes, detect_actions. rewrite Hdoc.
    split; reflexivity.
Qed.

(** X4: [extract_entities] returns a list exactly when the pipeline
    succeeds on a document without entity spans, and the list is then
    empty: because of the keyword [importance] in the constructor call,
    a document with an entity span always ends in [ProcessingError]. *)
Theorem extract_entities_returns_iff_no_entity (self : TextProcesor)
    (text : string) (entities : list Entity.t) :
  extract_entities self text = Return entities
  <-> entities = []
      /\ exists doc, nlp self text = Return doc /\ Doc.ents doc = [].
Proof.
  split.
  - intro H. destruct (nlp self text) as [doc | e] eqn:Hdoc.
    + rewrite (extract_entities_ok _ _ Hdoc) in H.
      destruct (Doc.ents doc) eqn:Hents; [| discriminate H].
      injection H as <-. split; [reflexivity |].
      exists doc. split; [reflexivity | exact Hents].
    + rewrite (extract_entities_provider_failure _ _ Hdoc) in H.
      discriminate H.
  - intros [-> [doc [Hdoc Hents]]].
    rewrite (extract_entities_ok _ _ Hdoc), Hents. reflexivity.
Qed.

(** ** More on segment_scenes *)

(** X5: when the document has a sentence, the scenes joined by single
    spaces are exactly the sentence texts joined by single spaces: the
    scenes differ from the sentence sequence only in where it is cut. *)
Theorem segment_scenes_join (self : TextProcesor) (text : string)
    (doc : Doc.t) :
  nlp self text = Return doc ->
  truthy (Doc.sents doc) = true ->
  exists scenes,
    segment_scenes self text = Return scenes
    /\ join " " scenes = join " " (map Span.text (Doc.sents doc)).
Proof.
  intros Hdoc Hsents. exists (scenes_of text doc).
  split; [now apply segment_scenes_ok | now apply scenes_of_join].
Qed.

Lemma segment_scenes_join_witness :
  exists scenes,
    segment_scenes demo "Hello there. Good day. " = Return scenes
    /\ join " " scenes = join " " (map Span.text (Doc.sents doc_hello)).
Proof.
  apply (@segment_scenes_join demo "Hello there. Good day. " doc_hello).
  - vm_compute. reflexivity.
  - reflexivity.
Defined.

(** The loop closes one scene per sentence with a marker, and what it
    still buffers at the end depends on the last sentence only. *)
Lemma segment_loop_count (sents : list Span.t) (d : Span.t) :
  forall scenes current scenes' current',
    segment_loop sents scenes current = (scenes', current') ->
    length scenes' = length scenes + length (filter has_marker sents)
    /\ truthy current'
       = match sents with
         | [] => truthy current
         | _ :: _ => negb (has_marker (last sents d))
         end.
Proof.
  induction sents as [| sent rest IH]; intros scenes current scenes' current' H.
  - simpl in H. injection H as <- <-. simpl. split; [lia | reflexivity].
  - cbn [segment_loop] in H. cbn [filter].
    destruct (has_marker sent) eqn:Hsent.
    + apply IH in H. destruct H as [Hlen Hcur].
      unfold list_append in Hlen. rewrite length_app in Hlen. simpl in Hlen.
      split; [simpl; lia |].
      rewrite Hcur. destruct rest; [simpl; now rewrite Hsent | reflexivity].
    + apply IH in H. destruct H as [Hlen Hcur].
      split; [lia |].
      rewrite Hcur. destruct rest; [| reflexivity].
      simpl. rewrite Hsent. unfold list_append.
      now apply truthy_app_r.
Qed.

(** X6: a sentence with a marker closes the scene it is in.  When the
    document's sentences end with [final], the number of scenes is the
    number of sentences with a marker, plus one when [final] has none. *)
Theorem segment_scenes_count (self : TextProcesor) (text : string)
    (doc : Doc.t) (front : list Span.t) (final : Span.t) :
  nlp self text = Return doc ->
  Doc.sents doc = (front ++ [final])%list ->
  exists scenes,
    segment_scenes self text = Return scenes
    /\ length scenes
       = length (filter has_marker (Doc.sents doc))
         + (if has_marker final then 0 else 1).
Proof.
  intros Hdoc Hsents. exists (scenes_of text doc).
  split; [now apply segment_scenes_ok |].
  unfold scenes_of.
  destruct (segment_loop (Doc.sents doc) [] []) as [scenes current] eqn:Hloop.
  apply (segment_loop_count _ final) in Hloop.
  destruct Hloop as [Hlen Hcur]. simpl in Hlen.
  assert (Hlast : last (Doc.sents doc) final = final)
    by (rewrite Hsents; apply last_last).
  assert (Hcur' : truthy current = negb (has_marker final)).
  { rewrite Hcur, Hlast. rewrite Hsents. destruct front; reflexivity. }
  destruct (has_marker final) eqn:Hfinal.
  - rewrite Hcur'. cbn [negb].
    assert (Hpos : length scenes <> 0).
    { rewrite Hlen, Hsents, filter_app, length_app. simpl.
      rewrite Hfinal. simpl. lia. }
    destruct scenes as [| s scenes]; [contradiction Hpos; reflexivity |].
    cbn [truthy]. lia.
  - rewrite Hcur'. cbn [negb]. unfold list_append.
    rewrite (@truthy_app_r _ scenes [_] eq_refl).
    rewrite length_app. simpl. lia.
Qed.

Lemma segment_scenes_count_witness :
  exists scenes,
    segment_scenes demo "Suddenly it rained. They ran home." = Return scenes
    /\ length scenes
       = length (filter has_marker (Doc.sents doc_rain_home))
         + (if has_marker (sentence "They ran home." 5) then 0 else 1).
Proof.
  apply (@segment_scenes_count demo "Suddenly it rained. They ran home."
           doc_rain_home [sentence "Suddenly it rained." 2]).
  - vm_compute. reflexivity.
  - reflexivity.
Defined.

Lemma segment_loop_truthy (sents : list Span.t) :
  forall scenes current scenes' current',
    Forall (fun sent => truthy_str (Span.text sent) = true) sents ->
    Forall (fun s => truthy_str s = true) scenes ->
    Forall (fun s => truthy_str s = true) current ->
    segment_loop sents scenes current = (scenes', current') ->
    Forall (fun s => truthy_str s = true) scenes'
    /\ Forall (fun s => truthy_str s = true) current'.
Proof.
  induction sents as [| sent rest IH];
    intros scenes current scenes' current' Hsents Hscenes Hcurrent H;
    simpl in H.
  - injection H as <- <-. split; assumption.
  - inversion Hsents as [| ? ? Hsent Hrest]; subst.
    assert (Hcur : Forall (fun s => truthy_str s = true)
                     (list_append current (Span.text sent))).
    { unfold list_append. apply Forall_app. split; [assumption |].
      constructor; [exact Hsent | constructor]. }
    destruct (has_marker sent).
    + apply (IH _ _ _ _ Hrest) in H; [exact H | | constructor].
      unfold list_append at 1. apply Forall_app. split; [assumption |].
      constructor; [| constructor].
      apply truthy_str_join; [| exact Hcur].
      unfold list_append. now apply truthy_app_r.
    + apply (IH _ _ _ _ Hrest) in H; assumption.
Qed.

(** X7: when the text is not empty and no sentence text is, no scene
    returned is the empty string. *)
Theorem segment_scenes_no_empty_scene (self : TextProcesor) (text : string)
    (doc : Doc.t) :
  nlp self text = Return doc ->
  truthy_str text = true ->
  Forall (fun sent => truthy_str (Span.text sent) = true) (Doc.sents doc) ->
  exists scenes,
    segment_scenes self text = Return scenes
    /\ Forall (fun s => truthy_str s = true) scenes.
Proof.
  intros Hdoc Htext Hsents. exists (scenes_of text doc).
  split; [now apply segment_scenes_ok |].
  unfold scenes_of.
  destruct (segment_loop (Doc.sents doc) [] []) as [scenes current] eqn:Hloop.
  apply (segment_loop_truthy Hsents) in Hloop; [| constructor | constructor].
  destruct Hloop as [Hscenes Hcurrent].
  assert (Hfinal : Forall (fun s => truthy_str s = true)
                     (if truthy current
                      then list_append scenes (join " " current)
                      else scenes)).
  { destruct (truthy current) eqn:Hcur; [| exact Hscenes].
    unfold list_append. apply Forall_app. split; [exact Hscenes |].
    constructor; [| constructor]. now apply truthy_str_join. }
  destruct (if truthy current
            then list_append scenes (join " " current)
            else scenes) as [| s final].
  - simpl. constructor; [exact Htext | constructor].
  - exact Hfinal.
Qed.

Lemma segment_scenes_no_empty_scene_witness :
  exists scenes,
    segment_scenes demo "Suddenly it rained. They ran home." = Return scenes
    /\ Forall (fun s => truthy_str s = true) scenes.
Proof.
  apply (@segment_scenes_no_empty_scene demo
           "Suddenly it rained. They ran home." doc_rain_home).
  - vm_compute. reflexivity.
  - reflexivity.
  - repeat (apply Forall_cons; [reflexivity |]). apply Forall_nil.
Defined.

(** ** Markers *)

Lemma str_in_iff (x : string) (l : list string) :
  str_in x l = true <-> In x l.
Proof.
  unfold str_in. rewrite existsb_exists. split.
  - intros [y [Hin Heq]]. apply String.eqb_eq in Heq. now subst.
  - intro Hin. exists x. split; [exact Hin | apply String.eqb_refl].
Qed.

(** X8: a sentence has a marker exactly when its lowercased text has one
    of the six markers as a substring, at any place: inside a longer word
    and in any letter case. *)
Theorem has_marker_iff_substring (sent : Span.t) :
  has_marker sent = true
  <-> exists marker pre post,
        In marker ["later"; "meanwhile"; "after"; "before"; "next"; "suddenly"]
        /\ lower (Span.text sent) = pre ++ marker ++ post.
Proof.
  unfold has_marker. rewrite existsb_exists. split.
  - intros [marker [Hin H]]. apply contains_iff in H.
    destruct H as [pre [post H]]. exists marker, pre, post. split; assumption.
  - intros [marker [pre [post [Hin H]]]]. exists marker.
    split; [exact Hin |]. apply contains_iff. exists pre, post. exact H.
Qed.

(** ** More on the entity loop *)

(** X10: [_get_entity_description] is the single-space join, in token
    order, of the texts of the tokens whose head is the span's root and
    whose relation is [amod] or [advmod]; it is the empty string when no
    token qualifies, and it depends on the span through its root only. *)
Theorem get_entity_description_join (ent : Span.t) (doc : Doc.t) :
  _get_entity_description ent doc
  = join " "
      (map Token.text
         (filter (fun token =>
                    Nat.eqb (Token.head token) (Span.root ent)
                    && str_in (Token.dep_ token) ["amod"; "advmod"])
            (Doc.tokens doc)))
  /\ (forallb (fun token => negb (qualifies ent token)) (Doc.tokens doc) = true
      -> _get_entity_description ent doc = "")
  /\ (forall ent', Span.root ent' = Span.root ent ->
                   _get_entity_description ent' doc
                   = _get_entity_description ent doc).
Proof.
  split; [| split].
  - rewrite _get_entity_description_spec. reflexivity.
  - intro Hnone. rewrite _get_entity_description_spec. unfold description_spec.
    assert (Hfilter : filter (qualifies ent) (Doc.tokens doc) = []).
    { induction (Doc.tokens doc) as [| token rest IH]; [reflexivity |].
      cbn [forallb] in Hnone. apply andb_true_iff in Hnone.
      destruct Hnone as [Htoken Hrest]. cbn [filter].
      apply negb_true_iff in Htoken. rewrite Htoken. now apply IH. }
    rewrite Hfilter. reflexivity.
  - intros ent' Hroot. rewrite !_get_entity_description_spec.
    unfold description_spec.
    assert (Hq : filter (qualifies ent') (Doc.tokens doc)
                 = filter (qualifies ent) (Doc.tokens doc)).
    { apply filter_ext. intro token. unfold qualifies. now rewrite Hroot. }
    rewrite Hq. reflexivity.
Qed.

Lemma float_1_neq_15 : 1.0%float <> 1.5%float.
Proof.
  intro H.
  assert (Heq : PrimFloat.eqb 1.0 1.5 = PrimFloat.eqb 1.5 1.5)
    by (rewrite H; reflexivity).
  vm_compute in Heq. discriminate Heq.
Qed.

(** X11: the weight computed for a span is 1.5 exactly when its label is
    [PERSON] or [ORG], spelled so, and 1.0 for every other label. *)
Theorem importance_of_privileged (ent : Span.t) :
  (importance_of ent = 1.5%float
   <-> Span.label_ ent = "PERSON" \/ Span.label_ ent = "ORG")
  /\ (importance_of ent = 1.0%float
      <-> Span.label_ ent <> "PERSON" /\ Span.label_ ent <> "ORG").
Proof.
  rewrite importance_of_cases.
  destruct (str_in (Span.label_ ent) ["PERSON"; "ORG"]) eqn:Hin.
  - apply str_in_iff in Hin. simpl in Hin.
    assert (Hlabel : Span.label_ ent = "PERSON" \/ Span.label_ ent = "ORG")
      by (destruct Hin as [H | [H | []]]; auto).
    split; split.
    + intros _. exact Hlabel.
    + intros _. reflexivity.
    + intro H. symmetry in H. now apply float_1_neq_15 in H.
    + intros [H1 H2]. destruct Hlabel; contradiction.
  - assert (Hnot : ~ In (Span.label_ ent) ["PERSON"; "ORG"]).
    { intro H. apply str_in_iff in H. rewrite H in Hin. discriminate Hin. }
    simpl in Hnot. split; split.
    + intro H. now apply float_1_neq_15 in H.
    + intros [H | H]; exfalso; apply Hnot; auto.
    + intros _. split; intro H; apply Hnot; auto.
    + intros _. reflexivity.
Qed.

(** ** More on the records *)

(** X12: an entity is rebuilt from its own dictionary: calling the
    constructor with the items of [to_dict] as keyword arguments returns
    the entity. *)
Theorem Entity_init_to_dict (e : Entity.t) :
  Entity.init (Entity.to_dict e) = Return e.
Proof.
  destruct e. reflexivity.
Qed.

Lemma map_injective {A B} (f : A -> B) :
  (forall x y, f x = f y -> x = y) ->
  forall l1 l2, map f l1 = map f l2 -> l1 = l2.
Proof.
  intros Hf l1. induction l1 as [| x l1 IH]; intros [| y l2] H;
    try discriminate H; [reflexivity |].
  simpl in H. injection H as Hxy H. f_equal; [now apply Hf | now apply IH].
Qed.

Lemma value_injective (m1 m2 : EmotionType.t) :
  EmotionType.value m1 = EmotionType.value m2 -> m1 = m2.
Proof.
  intro H.
  assert (Hcall : EmotionType.from_string (EmotionType.value m1)
                  = EmotionType.from_string (EmotionType.value m2))
    by now rewrite H.
  rewrite !from_string_value in Hcall. now injection Hcall.
Qed.

Lemma Entity_to_dict_injective (e1 e2 : Entity.t) :
  Entity.to_dict e1 = Entity.to_dict e2 -> e1 = e2.
Proof.
  destruct e1, e2. unfold Entity.to_dict. simpl. intro H.
  injection H as -> -> -> -> ->. reflexivity.
Qed.

(** X13: [to_dict] loses nothing: two entities with the same dictionary
    are the same entity, and two scenes with the same dictionary are the
    same scene. *)
Theorem to_dict_injective :
  (forall e1 e2, Entity.to_dict e1 = Entity.to_dict e2 -> e1 = e2)
  /\ (forall s1 s2, Scene.to_dict s1 = Scene.to_dict s2 -> s1 = s2).
Proof.
  split; [exact Entity_to_dict_injective |].
  intros [id1 text1 entities1 mood1 actions1 layout1 image1]
         [id2 text2 entities2 mood2 actions2 layout2 image2].
  unfold Scene.to_dict. simpl. intro H.
  injection H as -> -> Hentities Hmood Hactions -> ->.
  apply value_injective in Hmood.
  apply (map_injective PyStr) in Hactions;
    [| intros x y Hxy; now injection Hxy].
  apply (map_injective (fun e => PyDict (Entity.to_dict e))) in Hentities.
  - now subst.
  - intros x y Hxy. apply Entity_to_dict_injective. congruence.
Qed.

(** X14: the mood string written by [Scene.to_dict] is read back by
    [EmotionType.from_string] as the scene's mood. *)
Theorem Scene_mood_round_trip (s : Scene.t) (v : string) :
  get "mood" (Scene.to_dict s) = Some (PyStr v) ->
  EmotionType.from_string v = Return (Scene.mood s).
Proof.
  simpl. intro H. injection H as <-. apply from_string_value.
Qed.

Lemma Scene_mood_round_trip_witness :
  EmotionType.from_string "sad"
  = Return (Scene.mood (Scene.mk 0 "They ran home." [] EmotionType.SAD
                          ["ran"] PyNone PyNone)).
Proof.
  apply (@Scene_mood_round_trip
           (Scene.mk 0 "They ran home." [] EmotionType.SAD ["ran"]
              PyNone PyNone) "sad").
  reflexivity.
Defined.
